(** * GTpo serializer interface (gtpoSerializer.h)

    A shallow embedding of [gtpo::OutSerializer], [gtpo::InSerializer] and
    [gtpo::Serializer]: the progress-notifier slot (a [std::unique_ptr]
    over the free store), the stream-based virtual hooks with their empty
    default bodies, and the two file-name shortcuts built on
    [std::ofstream] / [std::ifstream]. *)

From Stdlib Require Import NArith.
From Stdlib.Strings Require Import Byte.
From stdpp Require Import gmap strings list.

Local Open Scope N_scope.
Local Open Scope string_scope.

(** ** Control: normal return or a thrown exception *)

Inductive exception : Type :=
  | Exception (what : string).

Inductive completion (A : Type) : Type :=
  | Return (a : A)
  | Throw (e : exception).
Arguments Return {A} a.
Arguments Throw {A} e.

(** Sequencing: a thrown exception skips the rest of the body. *)
#[global] Instance completion_bind : MBind completion :=
  fun A B (k : A -> completion B) (c : completion A) =>
    match c with
    | Return a => k a
    | Throw e => Throw e
    end.

(** The caller of a [void] function sees either a normal return or an
    exception in flight; [failed] is the second case. *)
Definition failed {A} (c : completion A) : bool :=
  match c with
  | Return _ => false
  | Throw _ => true
  end.

(** ** The free store and [std::unique_ptr< gtpo::IProgressNotifier >] *)

Module Memory.

(** A pointer to an [IProgressNotifier]; address 0 is [nullptr]. *)
Definition ptr : Type := N.
Definition nullptr : ptr := 0.

(** The free store: the addresses of the notifiers that are alive. *)
Abbreviation store := (gset N).

(** [new IProgressNotifier( )]: a fresh, non-null address. *)
Definition new (h : store) : ptr * store :=
  let p := fresh ({[nullptr]} ∪ h) in (p, {[p]} ∪ h).

(** [delete p]. *)
Definition delete (p : ptr) (h : store) : store := h ∖ {[p]}.

(** [~unique_ptr()]: deletes the owned object, if there is one. *)
Definition unique_ptr_dtor (p : ptr) (h : store) : store :=
  if N.eqb p nullptr then h else delete p h.

(** [a.swap( b )]. *)
Definition swap (a b : ptr) : ptr * ptr := (b, a).

(** [unique_ptr::get()]. *)
Definition get (p : ptr) : ptr := p.

End Memory.
Export Memory.

(** ** gtpoUtils.h: [gtpo::assert_throw] *)

(** Modelled from the spec: [gtpo::assert_throw( bool expr, std::string message )]
    is declared in gtpoUtils.h, which this header includes and whose text
    is missing here.  It is the library's assertion: the asserted expression is expected to
    hold, and the call throws an exception carrying [message] when it does
    not. *)
Definition assert_throw (expr : bool) (message : string) : completion unit :=
  if expr then Return tt else Throw (Exception message).

(** ** [gtpo::Serializer]: the progress notifier slot *)

Record Serializer : Type := mkSerializer {
  _progressNotifier : ptr   (* std::unique_ptr< gtpo::IProgressNotifier > *)
}.

(** [Serializer()]: [_progressNotifier{ new IProgressNotifier( ) }]. *)
Definition Serializer_ctor (h : store) : Serializer * store :=
  let '(p, h1) := new h in
  ({| _progressNotifier := p |}, h1).

(** [registerProgressNotifier( std::unique_ptr< gtpo::IProgressNotifier > )].
    The parameter is a by-value [unique_ptr]; it is destroyed when the call
    ends, together with whatever the swap left in it. *)
Definition registerProgressNotifier (this : Serializer) (progressNotifier : ptr)
    (h : store) : Serializer * store :=
  if N.eqb progressNotifier nullptr then (this, h)
  else
    let '(mine, theirs) := swap (_progressNotifier this) progressNotifier in
    ({| _progressNotifier := mine |}, unique_ptr_dtor theirs h).

(** [registerProgressNotifier( gtpo::IProgressNotifier* )].  The raw pointer
    is wrapped in a temporary [unique_ptr] that is swapped with the slot and
    destroyed at the end of the statement. *)
Definition registerProgressNotifier_raw (this : Serializer) (progressNotifier : ptr)
    (h : store) : Serializer * store :=
  if N.eqb progressNotifier nullptr then (this, h)
  else
    let temporary := progressNotifier in
    let '(mine, theirs) := swap (_progressNotifier this) temporary in
    ({| _progressNotifier := mine |}, unique_ptr_dtor theirs h).

Definition getProgressNotifier_message : string :=
  "gtpo::Serializer<>::getProgressNotifier(): Internal error: serializer progress notifier can't be nullptr.".

(** [getProgressNotifier()], the non-const accessor. *)
Definition getProgressNotifier (this : Serializer) : completion ptr :=
  assert_throw (N.eqb (_progressNotifier this) nullptr)
    getProgressNotifier_message ;;
  Return (get (_progressNotifier this)).

(** [getProgressNotifier() const]. *)
Definition getProgressNotifier_const (this : Serializer) : ptr :=
  get (_progressNotifier this).

(** The class invariant: the slot is never empty. *)
Definition holds_notifier (this : Serializer) : Prop :=
  _progressNotifier this <> nullptr.

(** A registration call, through either overload. *)
Inductive registration : Type :=
  | ByUniquePtr (p : ptr)
  | ByRawPointer (p : ptr).

Definition register (st : Serializer * store) (r : registration) : Serializer * store :=
  match r with
  | ByUniquePtr p => registerProgressNotifier (fst st) p (snd st)
  | ByRawPointer p => registerProgressNotifier_raw (fst st) p (snd st)
  end.

(** Construction followed by a sequence of registrations. *)
Definition after_registrations (h : store) (rs : list registration) : Serializer * store :=
  fold_left register rs (Serializer_ctor h).

(** The pointer a registration call passes. *)
Definition registered (r : registration) : ptr :=
  match r with
  | ByUniquePtr p => p
  | ByRawPointer p => p
  end.

(** The registration shown in the documentation of
    [registerProgressNotifier]:
    [serializer.registerProgressNotifier( std::make_unique< ... >( ) )],
    a notifier allocated for the call and handed over. *)
Definition register_made (st : Serializer * store) : Serializer * store :=
  let '(p, h1) := new (snd st) in
  registerProgressNotifier (fst st) p h1.

(** ** Byte channels

    [std::ostream] and [std::istream] as the stream-based hooks see them:
    the bytes put into the sink so far, the source's bytes with the read
    position, and the stream's failure state. *)

Record ostream : Type := mkOstream {
  os_written : list byte;
  os_fail : bool
}.

Record istream : Type := mkIstream {
  is_content : list byte;
  is_pos : nat;
  is_fail : bool
}.

(** ** The environment of a call: files, open descriptors, [std::cerr] *)

(** The stream-based virtual member functions. *)
Inductive hook : Type :=
  | HookSerializeOut
  | HookSerializeIn.

Record World : Type := mkWorld {
  files : gmap string (list byte);  (* the content of every existing file, by its canonical path *)
  unwritable : gset string;         (* paths that cannot be created or opened for output *)
  unreadable : gset string;         (* existing files that cannot be opened for input *)
  open_files : list string;         (* the descriptors the process holds *)
  cerr : string;                    (* what has been printed on std::cerr *)
  dispatched : list hook            (* instrumentation: the virtual calls made, latest first *)
}.

Definition set_files (fs : gmap string (list byte)) (w : World) : World :=
  mkWorld fs (unwritable w) (unreadable w) (open_files w) (cerr w) (dispatched w).

Definition set_open_files (l : list string) (w : World) : World :=
  mkWorld (files w) (unwritable w) (unreadable w) l (cerr w) (dispatched w).

(** [std::cerr << text]. *)
Definition cerr_print (text : string) (w : World) : World :=
  mkWorld (files w) (unwritable w) (unreadable w) (open_files w)
          (cerr w ++ text) (dispatched w).

Definition note_dispatch (k : hook) (w : World) : World :=
  mkWorld (files w) (unwritable w) (unreadable w) (open_files w)
          (cerr w) (k :: dispatched w).

Definition endl : string := String (Ascii.ascii_of_N 10) EmptyString.

(** Giving a descriptor back: one entry for the file leaves the table. *)
Fixpoint release (f : string) (l : list string) : list string :=
  match l with
  | [] => []
  | g :: l' => if decide (g = f) then l' else g :: release f l'
  end.

(** ** [std::ofstream] *)

Record ofstream : Type := mkOfstream {
  of_stream : ostream;        (* the std::ostream base *)
  of_file : option string     (* the file the buffer is attached to, when open *)
}.

(** [std::ofstream os( fileName, std::ios::out | std::ios::trunc | std::ios::binary )]:
    on success the file exists and is empty; on failure [failbit] is set. *)
Definition ofstream_ctor (fileName : string) (w : World) : ofstream * World :=
  if decide (fileName ∈ unwritable w) then
    (mkOfstream (mkOstream [] true) None, w)
  else
    (mkOfstream (mkOstream [] false) (Some fileName),
     set_open_files (fileName :: open_files w)
       (set_files (<[fileName := []]> (files w)) w)).

(** [!os]. *)
Definition ofstream_not (os : ofstream) : bool := os_fail (of_stream os).

(** [os.is_open()]. *)
Definition ofstream_is_open (os : ofstream) : bool :=
  match of_file os with Some _ => true | None => false end.

(** Bytes put into a file from its start: they replace the bytes that
    were there; what the file held beyond them stays. *)
Definition overwrite (written existing : list byte) : list byte :=
  written ++ drop (length written) existing.

(** [os.close()]: the bytes written reach the file, over the content it has
    had since the open, and the descriptor is given back; closing a stream
    that is not open sets [failbit]. *)
Definition ofstream_close (os : ofstream) (w : World) : ofstream * World :=
  match of_file os with
  | Some f =>
      (mkOfstream (of_stream os) None,
       set_open_files (release f (open_files w))
         (set_files
            (<[f := overwrite (os_written (of_stream os)) (default [] (files w !! f))]>
               (files w)) w))
  | None => (mkOfstream (mkOstream (os_written (of_stream os)) true) None, w)
  end.

(** [~ofstream()], run when the enclosing block is left, by [return] or by
    an exception unwinding the stack: closes the file if it is still open. *)
Definition ofstream_dtor (os : ofstream) (w : World) : World :=
  if ofstream_is_open os then snd (ofstream_close os w) else w.

(** ** [std::ifstream] *)

Record ifstream : Type := mkIfstream {
  if_stream : istream;
  if_file : option string
}.

(** [std::ifstream is( fileName, std::ios::in | std::ios::binary )]. *)
Definition ifstream_ctor (fileName : string) (w : World) : ifstream * World :=
  match files w !! fileName with
  | Some content =>
      if decide (fileName ∈ unreadable w) then
        (mkIfstream (mkIstream [] 0%nat true) None, w)
      else
        (mkIfstream (mkIstream content 0%nat false) (Some fileName),
         set_open_files (fileName :: open_files w) w)
  | None => (mkIfstream (mkIstream [] 0%nat true) None, w)
  end.

Definition ifstream_not (ifs : ifstream) : bool := is_fail (if_stream ifs).

Definition ifstream_is_open (ifs : ifstream) : bool :=
  match if_file ifs with Some _ => true | None => false end.

Definition ifstream_close (ifs : ifstream) (w : World) : ifstream * World :=
  match if_file ifs with
  | Some f =>
      (mkIfstream (if_stream ifs) None,
       set_open_files (release f (open_files w)) w)
  | None =>
      (mkIfstream (mkIstream (is_content (if_stream ifs)) (is_pos (if_stream ifs)) true) None, w)
  end.

Definition ifstream_dtor (ifs : ifstream) (w : World) : World :=
  if ifstream_is_open ifs then snd (ifstream_close ifs w) else w.

(** ** The stream-based hooks and their default bodies *)

(** What a call leaves behind: the objects it could mutate, and how it
    completed. *)
Definition effect (S : Type) : Type := S * completion unit.

(** The virtual member functions [serializeOut( const Graph&, std::ostream& )]
    and [serializeIn( std::istream&, Graph& )] of a serializer whose own
    state has type [D].  An override works on the object it is called on and
    on the references it receives; [serializeOut] takes the graph by
    const reference. *)
Class SerializerHooks (D Graph : Type) : Type := {
  serializeOut : D -> Graph -> ostream -> effect (D * ostream);
  serializeIn : D -> istream -> Graph -> effect (D * istream * Graph)
}.

Section Defaults.

Context {D Graph : Type}.

(** [OutSerializer::serializeOut( Graph&, gtpo::IProgressNotifier* )]. *)
Definition OutSerializer_serializeOut (this : D) (graph : Graph) (progress : ptr)
  : effect D :=
  (this, Return tt).

(** [InSerializer::serializeIn( Graph&, gtpo::IProgressNotifier* )]. *)
Definition InSerializer_serializeIn (this : D) (graph : Graph) (progress : ptr)
  : effect (D * Graph) :=
  ((this, graph), Return tt).

(** [Serializer::serializeOut( const Graph&, std::ostream& )]. *)
Definition Serializer_serializeOut (this : D) (graph : Graph) (os : ostream)
  : effect (D * ostream) :=
  ((this, os), Return tt).

(** [Serializer::serializeIn( std::istream&, Graph& )]. *)
Definition Serializer_serializeIn (this : D) (ins : istream) (graph : Graph)
  : effect (D * istream * Graph) :=
  ((this, ins, graph), Return tt).

(** A serializer that overrides neither hook. *)
Definition not_overridden : SerializerHooks D Graph :=
  {| serializeOut := Serializer_serializeOut;
     serializeIn := Serializer_serializeIn |}.

End Defaults.

(** ** The file-name shortcuts *)

Definition serializeOutTo_message : string :=
  "gtpo::ProtoSerializer::serializeOut(): Error: Can't open output stream ".

Definition serializeInFrom_message : string :=
  "gtpo::ProtoSerializer::serializeIn(): Error: Can't open input stream ".

Section Shortcuts.

Context {D Graph : Type} {hooks : SerializerHooks D Graph}.

(** [Serializer::serializeOutTo( const Graph&, std::string )]. *)
Definition serializeOutTo (this : D) (graph : Graph) (fileName : string) (w : World)
  : effect (D * World) :=
  let '(os, w) := ofstream_ctor fileName w in
  if ofstream_not os then
    let w := cerr_print (serializeOutTo_message ++ fileName ++ endl) w in
    ((this, ofstream_dtor os w), Return tt)
  else
    let w := note_dispatch HookSerializeOut w in
    let '((this, s), c) := serializeOut this graph (of_stream os) in
    let os := mkOfstream s (of_file os) in
    match c with
    | Throw e => ((this, ofstream_dtor os w), Throw e)
    | Return _ =>
        let '(os, w) :=
          if ofstream_is_open os then ofstream_close os w else (os, w) in
        ((this, ofstream_dtor os w), Return tt)
    end.

(** [Serializer::serializeInFrom( std::string, Graph& )]. *)
Definition serializeInFrom (this : D) (fileName : string) (graph : Graph) (w : World)
  : effect (D * Graph * World) :=
  let '(ifs, w) := ifstream_ctor fileName w in
  if ifstream_not ifs then
    let w := cerr_print (serializeInFrom_message ++ fileName ++ endl) w in
    ((this, graph, ifstream_dtor ifs w), Return tt)
  else
    let w := note_dispatch HookSerializeIn w in
    let '((this, s, graph), c) := serializeIn this (if_stream ifs) graph in
    let ifs := mkIfstream s (if_file ifs) in
    match c with
    | Throw e => ((this, graph, ifstream_dtor ifs w), Throw e)
    | Return _ =>
        let '(ifs, w) :=
          if ifstream_is_open ifs then ifstream_close ifs w else (ifs, w) in
        ((this, graph, ifstream_dtor ifs w), Return tt)
    end.

End Shortcuts.

(** ** A concrete serializer, used to exercise the shortcuts

    Its graph is a sequence of bytes; the output hook appends the graph to
    the sink and fails on an empty graph, the input hook reads the rest of
    the source into the graph and fails on an empty source.  The object
    counts the calls it served. *)

Definition raw_serializeOut (this : nat) (graph : list byte) (os : ostream)
  : effect (nat * ostream) :=
  match graph with
  | [] => ((S this, os), Throw (Exception "empty graph"))
  | _ => ((S this, mkOstream (os_written os ++ graph) (os_fail os)), Return tt)
  end.

Definition raw_serializeIn (this : nat) (ins : istream) (graph : list byte)
  : effect (nat * istream * list byte) :=
  match drop (is_pos ins) (is_content ins) with
  | [] => ((S this, ins, []), Throw (Exception "truncated input"))
  | rest =>
      ((S this, mkIstream (is_content ins) (length (is_content ins)) (is_fail ins), rest),
       Return tt)
  end.

Definition raw_hooks : SerializerHooks nat (list byte) :=
  {| serializeOut := raw_serializeOut; serializeIn := raw_serializeIn |}.

(** A small environment: one existing file, one path that cannot be
    written, one file that cannot be read. *)
Definition sample_world : World :=
  {| files := {[ "g.bin" := [x01; x02]; "locked.bin" := [x09] ]};
     unwritable := {[ "/no/such/dir/g.bin" ]};
     unreadable := {[ "locked.bin" ]};
     open_files := [];
     cerr := "";
     dispatched := [] |}.

(** * Properties *)

(** ** The free store *)

Lemma new_nonnull h : fst (new h) <> nullptr.
Proof.
  intros E. apply (is_fresh ({[nullptr]} ∪ h)).
  change (fst (new h) ∈ {[nullptr]} ∪ h). rewrite E. set_solver.
Qed.

Lemma new_fresh h : fst (new h) ∉ h.
Proof.
  intros E. apply (is_fresh ({[nullptr]} ∪ h)).
  change (fst (new h) ∈ {[nullptr]} ∪ h). set_solver.
Qed.

Lemma delete_dead p h : p ∉ delete p h.
Proof. unfold delete. rewrite elem_of_difference, elem_of_singleton. tauto. Qed.

Lemma unique_ptr_dtor_dead p h : p <> nullptr -> p ∉ unique_ptr_dtor p h.
Proof.
  intros Hp. unfold unique_ptr_dtor.
  destruct (N.eqb_spec p nullptr); [done | apply delete_dead].
Qed.

(** ** The notifier slot *)

Lemma registerProgressNotifier_raw_eq this p h :
  registerProgressNotifier_raw this p h = registerProgressNotifier this p h.
Proof. reflexivity. Qed.

Lemma registerProgressNotifier_installs this p h :
  p <> nullptr ->
  registerProgressNotifier this p h =
    ({| _progressNotifier := p |}, unique_ptr_dtor (_progressNotifier this) h).
Proof.
  intros Hp. unfold registerProgressNotifier.
  destruct (N.eqb_spec p nullptr); [contradiction | reflexivity].
Qed.

Lemma Serializer_ctor_holds h : holds_notifier (fst (Serializer_ctor h)).
Proof.
  unfold holds_notifier, Serializer_ctor.
  pose proof (new_nonnull h) as Hn. destruct (new h) as [p h1]. exact Hn.
Qed.

Lemma registerProgressNotifier_holds this p h :
  holds_notifier this -> holds_notifier (fst (registerProgressNotifier this p h)).
Proof.
  intros Hinv. unfold registerProgressNotifier.
  destruct (N.eqb_spec p nullptr) as [E | NE]; simpl; [exact Hinv | exact NE].
Qed.

Lemma register_holds st r : holds_notifier (fst st) -> holds_notifier (fst (register st r)).
Proof.
  destruct r as [p | p]; simpl; intros Hinv.
  - by apply registerProgressNotifier_holds.
  - change (holds_notifier (fst (registerProgressNotifier (fst st) p (snd st)))).
    by apply registerProgressNotifier_holds.
Qed.

Lemma fold_register_holds rs : forall st,
  holds_notifier (fst st) -> holds_notifier (fst (fold_left register rs st)).
Proof.
  induction rs as [| r rs IH]; intros st Hinv; simpl; [exact Hinv |].
  apply IH. by apply register_holds.
Qed.

Lemma after_registrations_holds h rs : holds_notifier (fst (after_registrations h rs)).
Proof. apply fold_register_holds, Serializer_ctor_holds. Qed.

(** The const accessor reads the slot without any check, and so never
    yields [nullptr] on a constructed serializer. *)
Lemma getProgressNotifier_const_nonnull h rs :
  getProgressNotifier_const (fst (after_registrations h rs)) <> nullptr.
Proof. apply after_registrations_holds. Qed.

(** The check of the non-const accessor asserts that the slot is empty. *)
Lemma getProgressNotifier_spec this :
  getProgressNotifier this =
    if N.eqb (_progressNotifier this) nullptr then Return nullptr
    else Throw (Exception getProgressNotifier_message).
Proof.
  unfold getProgressNotifier, assert_throw.
  destruct (N.eqb_spec (_progressNotifier this) nullptr) as [E | NE]; simpl.
  - unfold get. by rewrite E.
  - reflexivity.
Qed.

Lemma getProgressNotifier_throws this :
  holds_notifier this ->
  getProgressNotifier this = Throw (Exception getProgressNotifier_message).
Proof.
  intros Hinv. rewrite getProgressNotifier_spec.
  destruct (N.eqb_spec (_progressNotifier this) nullptr); [contradiction | reflexivity].
Qed.

(** C1: after construction and after any sequence of registrations the
    non-const [getProgressNotifier()] should succeed and return the held,
    non-null notifier.  The slot is indeed never null
    ([after_registrations_holds]), but the accessor asserts
    [_progressNotifier == nullptr]: on every such serializer the assertion
    fails and the call throws instead of returning the handle. *)
Theorem getProgressNotifier_throws_after_registrations h rs :
  getProgressNotifier (fst (after_registrations h rs)) =
    Throw (Exception getProgressNotifier_message).
Proof. apply getProgressNotifier_throws, after_registrations_holds. Qed.

(** C2: registering a null notifier, through the [unique_ptr] overload or
    through the raw-pointer overload, leaves the serializer and the free
    store as they were: the installed notifier is kept, neither cleared nor
    replaced nor destroyed. *)
Theorem registerProgressNotifier_null_is_noop this h :
  registerProgressNotifier this nullptr h = (this, h) /\
  registerProgressNotifier_raw this nullptr h = (this, h).
Proof. split; reflexivity. Qed.

(** C3: after [registerProgressNotifier( r )] with a non-null [r] the slot
    holds exactly [r] (the const accessor returns [r] itself) and the
    notifier held before is no longer alive; yet the non-const
    [getProgressNotifier()] does not return the handle: it throws. *)
Theorem registerProgressNotifier_then_getProgressNotifier this r h :
  r <> nullptr ->
  holds_notifier this ->
  let st := registerProgressNotifier this r h in
  getProgressNotifier_const (fst st) = r /\
  (_progressNotifier this ∉ snd st) /\
  getProgressNotifier (fst st) = Throw (Exception getProgressNotifier_message).
Proof.
  intros Hr Hinv st. subst st.
  rewrite registerProgressNotifier_installs by exact Hr. simpl.
  split; [reflexivity |]. split.
  - by apply unique_ptr_dtor_dead.
  - by apply getProgressNotifier_throws.
Qed.

Lemma registerProgressNotifier_then_getProgressNotifier_witness :
  (7 <> nullptr /\ holds_notifier {| _progressNotifier := 8 |}) /\
  let st := registerProgressNotifier {| _progressNotifier := 8 |} 7 {[ 5; 7; 8 ]} in
  getProgressNotifier_const (fst st) = 7 /\
  (_progressNotifier {| _progressNotifier := 8 |} ∉ snd st) /\
  getProgressNotifier (fst st) = Throw (Exception getProgressNotifier_message).
Proof.
  assert (H7 : 7 <> nullptr) by discriminate.
  assert (H8 : holds_notifier {| _progressNotifier := 8 |}) by discriminate.
  split; [split; assumption |].
  exact (registerProgressNotifier_then_getProgressNotifier
           {| _progressNotifier := 8 |} 7 {[ 5; 7; 8 ]} H7 H8).
Defined.

(** C10: the two overloads of [registerProgressNotifier] agree on every
    argument.  For a non-null notifier both leave it in the slot (ownership
    has moved to the serializer) and both destroy the notifier held before;
    for a null argument both do nothing. *)
Theorem registerProgressNotifier_overloads_agree this p h :
  p <> nullptr ->
  holds_notifier this ->
  registerProgressNotifier this p h = registerProgressNotifier_raw this p h /\
  _progressNotifier (fst (registerProgressNotifier_raw this p h)) = p /\
  (_progressNotifier this ∉ snd (registerProgressNotifier_raw this p h)) /\
  registerProgressNotifier this nullptr h = registerProgressNotifier_raw this nullptr h /\
  registerProgressNotifier_raw this nullptr h = (this, h).
Proof.
  intros Hp Hinv.
  pose proof (registerProgressNotifier_installs this p h Hp) as E.
  change (registerProgressNotifier_raw this p h)
    with (registerProgressNotifier this p h).
  rewrite E. simpl.
  split; [reflexivity |]. split; [reflexivity |].
  split; [by apply unique_ptr_dtor_dead |].
  split; reflexivity.
Qed.

Lemma registerProgressNotifier_overloads_agree_witness :
  (7 <> nullptr /\ holds_notifier {| _progressNotifier := 8 |}) /\
  registerProgressNotifier {| _progressNotifier := 8 |} 7 {[ 5; 7; 8 ]} =
    registerProgressNotifier_raw {| _progressNotifier := 8 |} 7 {[ 5; 7; 8 ]} /\
  _progressNotifier
    (fst (registerProgressNotifier_raw {| _progressNotifier := 8 |} 7 {[ 5; 7; 8 ]})) = 7 /\
  (_progressNotifier {| _progressNotifier := 8 |}
    ∉ snd (registerProgressNotifier_raw {| _progressNotifier := 8 |} 7 {[ 5; 7; 8 ]})) /\
  registerProgressNotifier {| _progressNotifier := 8 |} nullptr {[ 5; 7; 8 ]} =
    registerProgressNotifier_raw {| _progressNotifier := 8 |} nullptr {[ 5; 7; 8 ]} /\
  registerProgressNotifier_raw {| _progressNotifier := 8 |} nullptr {[ 5; 7; 8 ]} =
    ({| _progressNotifier := 8 |}, {[ 5; 7; 8 ]}).
Proof.
  assert (H7 : 7 <> nullptr) by discriminate.
  assert (H8 : holds_notifier {| _progressNotifier := 8 |}) by discriminate.
  split; [split; assumption |].
  exact (registerProgressNotifier_overloads_agree
           {| _progressNotifier := 8 |} 7 {[ 5; 7; 8 ]} H7 H8).
Defined.

(** ** Streams on files *)

Lemma overwrite_nil written : overwrite written [] = written.
Proof. unfold overwrite. by rewrite drop_nil, app_nil_r. Qed.

Lemma release_head f l : release f (f :: l) = l.
Proof. simpl. by rewrite decide_True. Qed.

Lemma ofstream_ctor_fails f w :
  ofstream_not (fst (ofstream_ctor f w)) = true <-> f ∈ unwritable w.
Proof.
  unfold ofstream_ctor. destruct (decide (f ∈ unwritable w)); simpl; split; auto; discriminate.
Qed.

Lemma ofstream_ctor_opens f w :
  ofstream_not (fst (ofstream_ctor f w)) = false <-> f ∉ unwritable w.
Proof.
  rewrite <- ofstream_ctor_fails. by destruct (ofstream_not _).
Qed.

Lemma ifstream_ctor_fails f w :
  ifstream_not (fst (ifstream_ctor f w)) = true <->
  files w !! f = None \/ f ∈ unreadable w.
Proof.
  unfold ifstream_ctor. destruct (files w !! f) as [c |].
  - destruct (decide (f ∈ unreadable w)) as [Hin | Hout]; simpl.
    + split; [intros _; right; exact Hin | intros _; reflexivity].
    + split; [discriminate | intros [Hn | Hin]; [discriminate | contradiction]].
  - simpl. split; [intros _; by left | intros _; reflexivity].
Qed.

Lemma ifstream_ctor_opens f w :
  ifstream_not (fst (ifstream_ctor f w)) = false <->
  (exists c, files w !! f = Some c) /\ f ∉ unreadable w.
Proof.
  unfold ifstream_ctor. destruct (files w !! f) as [c |].
  - destruct (decide (f ∈ unreadable w)) as [Hin | Hout]; simpl.
    + split; [discriminate | intros [_ Hn]; contradiction].
    + split; [intros _; split; [by exists c | exact Hout] | intros _; reflexivity].
  - simpl. split; [discriminate | intros [[c Hc] _]; discriminate].
Qed.

Section ShortcutFacts.

Context {D Graph : Type} {hooks : SerializerHooks D Graph}.

(** The output shortcut when the file cannot be opened. *)
Lemma serializeOutTo_not_opened (this : D) (graph : Graph) f w :
  ofstream_not (fst (ofstream_ctor f w)) = true ->
  serializeOutTo this graph f w =
    ((this, cerr_print (serializeOutTo_message ++ f ++ endl) w), Return tt).
Proof.
  intros Hf. apply ofstream_ctor_fails in Hf.
  unfold serializeOutTo, ofstream_ctor. by rewrite decide_True.
Qed.

(** The output shortcut when the file opens: the hook runs on the empty
    sink, and whatever it has put there is the file's new content, whether
    the hook returned or threw. *)
Lemma serializeOutTo_opened (this : D) (graph : Graph) f w :
  ofstream_not (fst (ofstream_ctor f w)) = false ->
  serializeOutTo this graph f w =
    let r := serializeOut this graph (mkOstream [] false) in
    ((fst (fst r),
      mkWorld (<[f := os_written (snd (fst r))]> (files w))
              (unwritable w) (unreadable w) (open_files w) (cerr w)
              (HookSerializeOut :: dispatched w)),
     snd r).
Proof.
  intros Hf. apply ofstream_ctor_opens in Hf.
  unfold serializeOutTo, ofstream_ctor. rewrite decide_False by exact Hf.
  cbn [ofstream_not of_stream os_fail of_file].
  destruct (serializeOut this graph (mkOstream [] false)) as [[this' s] c].
  destruct c as [[] | e]; cbn;
    rewrite decide_True by reflexivity;
    unfold set_open_files, set_files; cbn;
    rewrite lookup_insert_eq; cbn;
    by rewrite overwrite_nil, insert_insert_eq.
Qed.

(** The input shortcut when the file cannot be opened. *)
Lemma serializeInFrom_not_opened (this : D) (graph : Graph) f w :
  ifstream_not (fst (ifstream_ctor f w)) = true ->
  serializeInFrom this f graph w =
    ((this, graph, cerr_print (serializeInFrom_message ++ f ++ endl) w), Return tt).
Proof.
  intros Hf. unfold serializeInFrom.
  destruct (ifstream_ctor f w) as [ifs w1] eqn:E. simpl in Hf. rewrite Hf.
  assert (w1 = w /\ if_file ifs = None) as [-> Hnone].
  { unfold ifstream_ctor in E. destruct (files w !! f) as [c |].
    - destruct (decide (f ∈ unreadable w)); inversion E; subst; auto.
      discriminate.
    - inversion E; subst; auto. }
  unfold ifstream_dtor, ifstream_is_open. by rewrite Hnone.
Qed.

(** The input shortcut when the file opens. *)
Lemma serializeInFrom_opened (this : D) (graph : Graph) f w :
  ifstream_not (fst (ifstream_ctor f w)) = false ->
  serializeInFrom this f graph w =
    let r := serializeIn this (if_stream (fst (ifstream_ctor f w))) graph in
    ((fst (fst (fst r)), snd (fst r), note_dispatch HookSerializeIn w), snd r).
Proof.
  intros Hf. pose proof Hf as Hopen. apply ifstream_ctor_opens in Hopen.
  destruct Hopen as [[c Hc] Hr].
  unfold serializeInFrom, ifstream_ctor in *. rewrite Hc in *.
  rewrite decide_False in * by exact Hr.
  cbn [ifstream_not if_stream is_fail if_file fst].
  destruct (serializeIn this (mkIstream c 0%nat false) graph) as [[[this' s] g'] k].
  destruct k as [[] | e]; cbn;
    rewrite decide_True by reflexivity; reflexivity.
Qed.

End ShortcutFacts.

(** ** The default hooks *)

(** C6: in a serializer that overrides neither capability the stream-based
    [serializeOut] and [serializeIn] do nothing: the sink comes back with
    the bytes it had, the source with its content and read position, the
    graph and the object are unchanged, and the call returns normally.  The
    same holds for the hooks of [OutSerializer] and [InSerializer]. *)
Theorem default_hooks_do_nothing {D Graph : Type} (this : D) (graph : Graph)
    (os : ostream) (ins : istream) (progress : ptr) :
  serializeOut (SerializerHooks := not_overridden) this graph os = ((this, os), Return tt) /\
  serializeIn (SerializerHooks := not_overridden) this ins graph = ((this, ins, graph), Return tt) /\
  OutSerializer_serializeOut this graph progress = (this, Return tt) /\
  InSerializer_serializeIn this graph progress = ((this, graph), Return tt).
Proof. repeat split. Qed.

(** ** The file-name shortcuts *)

Section ShortcutClaims.

Context {D Graph : Type} {hooks : SerializerHooks D Graph}.

(** C4: when the file cannot be opened for output, [serializeOutTo] prints
    the open failure on [std::cerr] and returns; no file is touched, no
    descriptor is left open, the serializer is unchanged and the stream-based
    [serializeOut] is not called. *)
Theorem serializeOutTo_open_failure (this : D) (graph : Graph) f w :
  ofstream_not (fst (ofstream_ctor f w)) = true ->
  let r := serializeOutTo this graph f w in
  r = ((this, cerr_print (serializeOutTo_message ++ f ++ endl) w), Return tt) /\
  cerr (snd (fst r)) = cerr w ++ serializeOutTo_message ++ f ++ endl /\
  files (snd (fst r)) = files w /\
  open_files (snd (fst r)) = open_files w /\
  dispatched (snd (fst r)) = dispatched w.
Proof.
  intros Hf r. subst r. rewrite serializeOutTo_not_opened by exact Hf.
  repeat split.
Qed.

(** C5: when the file cannot be opened for input, [serializeInFrom] prints
    the failure on [std::cerr] and returns; the graph is the one passed in,
    the serializer is unchanged and the stream-based [serializeIn] is not
    called. *)
Theorem serializeInFrom_open_failure (this : D) (graph : Graph) f w :
  ifstream_not (fst (ifstream_ctor f w)) = true ->
  let r := serializeInFrom this f graph w in
  r = ((this, graph, cerr_print (serializeInFrom_message ++ f ++ endl) w), Return tt) /\
  snd (fst (fst r)) = graph /\
  cerr (snd (fst r)) = cerr w ++ serializeInFrom_message ++ f ++ endl /\
  files (snd (fst r)) = files w /\
  dispatched (snd (fst r)) = dispatched w.
Proof.
  intros Hf r. subst r. rewrite serializeInFrom_not_opened by exact Hf.
  repeat split.
Qed.

(** C7: the constructor of the file stream takes a descriptor exactly when
    the open succeeds, and when either shortcut is left, by a normal return,
    by an exception of the stream-based call or after a failed open, the
    process holds the descriptors it held before the call. *)
Theorem shortcuts_release_their_stream (this : D) (graph : Graph) f w :
  open_files (snd (ofstream_ctor f w)) =
    (if ofstream_not (fst (ofstream_ctor f w)) then open_files w
     else f :: open_files w) /\
  open_files (snd (fst (serializeOutTo this graph f w))) = open_files w /\
  open_files (snd (ifstream_ctor f w)) =
    (if ifstream_not (fst (ifstream_ctor f w)) then open_files w
     else f :: open_files w) /\
  open_files (snd (fst (serializeInFrom this f graph w))) = open_files w.
Proof.
  split; [| split; [| split]].
  - unfold ofstream_ctor. by destruct (decide (f ∈ unwritable w)).
  - destruct (ofstream_not (fst (ofstream_ctor f w))) eqn:Hf.
    + by rewrite serializeOutTo_not_opened.
    + by rewrite serializeOutTo_opened.
  - unfold ifstream_ctor. destruct (files w !! f); [| reflexivity].
    by destruct (decide (f ∈ unreadable w)).
  - destruct (ifstream_not (fst (ifstream_ctor f w))) eqn:Hf.
    + by rewrite serializeInFrom_not_opened.
    + by rewrite serializeInFrom_opened.
Qed.

(** C8, as the code has it: an exception thrown by the stream-based call is
    what the caller of the shortcut receives, unchanged; a failed open is
    only printed on [std::cerr], and the shortcut then returns normally,
    as it does after a successful run. *)
Theorem shortcut_completion (this : D) (graph : Graph) f w :
  snd (serializeOutTo this graph f w) =
    (if ofstream_not (fst (ofstream_ctor f w)) then Return tt
     else snd (serializeOut this graph (of_stream (fst (ofstream_ctor f w))))) /\
  cerr (snd (fst (serializeOutTo this graph f w))) =
    (if ofstream_not (fst (ofstream_ctor f w))
     then cerr w ++ serializeOutTo_message ++ f ++ endl else cerr w) /\
  snd (serializeInFrom this f graph w) =
    (if ifstream_not (fst (ifstream_ctor f w)) then Return tt
     else snd (serializeIn this (if_stream (fst (ifstream_ctor f w))) graph)) /\
  cerr (snd (fst (serializeInFrom this f graph w))) =
    (if ifstream_not (fst (ifstream_ctor f w))
     then cerr w ++ serializeInFrom_message ++ f ++ endl else cerr w).
Proof.
  assert (Hout : ofstream_not (fst (ofstream_ctor f w)) = false ->
                 of_stream (fst (ofstream_ctor f w)) = mkOstream [] false).
  { unfold ofstream_ctor. by destruct (decide (f ∈ unwritable w)). }
  destruct (ofstream_not (fst (ofstream_ctor f w))) eqn:Hf;
    destruct (ifstream_not (fst (ifstream_ctor f w))) eqn:Hg;
    rewrite ?serializeOutTo_not_opened, ?serializeOutTo_opened,
            ?serializeInFrom_not_opened, ?serializeInFrom_opened by assumption;
    rewrite ?Hout by reflexivity; repeat split.
Qed.

(** C9: two successive [serializeOutTo] calls on a path that opens for
    output.  The first call leaves its output in the file.  The second call
    opens the file again and the open truncates it: right after the open
    the file exists and holds nothing of what it held.  After the second
    call the file holds exactly what the second stream-based call put into
    its, initially empty, sink, and that is what a stream opened for input
    on the path finds; nothing of the first write is left. *)
Theorem serializeOutTo_twice_truncates (this : D) (g1 g2 : Graph) f w :
  f ∉ unwritable w ->
  f ∉ unreadable w ->
  let r1 := serializeOutTo this g1 f w in
  let first := os_written (snd (fst (serializeOut this g1 (mkOstream [] false)))) in
  let reopened := ofstream_ctor f (snd (fst r1)) in
  let r2 := serializeOutTo (fst (fst r1)) g2 f (snd (fst r1)) in
  let second := os_written (snd (fst (serializeOut (fst (fst r1)) g2 (mkOstream [] false)))) in
  files (snd (fst r1)) !! f = Some first /\
  ofstream_not (fst reopened) = false /\
  files (snd reopened) !! f = Some [] /\
  files (snd (fst r2)) !! f = Some second /\
  ifstream_not (fst (ifstream_ctor f (snd (fst r2)))) = false /\
  is_content (if_stream (fst (ifstream_ctor f (snd (fst r2))))) = second /\
  is_pos (if_stream (fst (ifstream_ctor f (snd (fst r2))))) = 0%nat.
Proof.
  intros Hw Hr r1 first reopened r2 second.
  assert (H1 : r1 = serializeOutTo this g1 f w) by reflexivity.
  rewrite serializeOutTo_opened in H1 by (by apply ofstream_ctor_opens).
  cbv zeta in H1. fold first in H1.
  assert (Hw1 : f ∉ unwritable (snd (fst r1))) by (by rewrite H1).
  assert (Hr1 : unreadable (snd (fst r1)) = unreadable w) by (by rewrite H1).
  assert (Hfirst : files (snd (fst r1)) !! f = Some first)
    by (rewrite H1; cbn; apply lookup_insert_eq).
  assert (Hopen : ofstream_not (fst reopened) = false)
    by (by apply ofstream_ctor_opens).
  assert (Hempty : files (snd reopened) !! f = Some []).
  { subst reopened. unfold ofstream_ctor. rewrite decide_False by exact Hw1.
    cbn. apply lookup_insert_eq. }
  assert (H2 : r2 = serializeOutTo (fst (fst r1)) g2 f (snd (fst r1))) by reflexivity.
  rewrite serializeOutTo_opened in H2 by exact Hopen.
  cbv zeta in H2. fold second in H2.
  assert (Hfile : files (snd (fst r2)) !! f = Some second).
  { rewrite H2. cbn. apply lookup_insert_eq. }
  assert (Hr2 : unreadable (snd (fst r2)) = unreadable w) by (by rewrite H2).
  split; [exact Hfirst |]. split; [exact Hopen |]. split; [exact Hempty |].
  split; [exact Hfile |].
  unfold ifstream_ctor, ifstream_not. rewrite Hfile.
  rewrite decide_False by (by rewrite Hr2).
  repeat split.
Qed.

End ShortcutClaims.

(** ** The shortcuts at work on the concrete serializer *)

Example raw_serializeOutTo_returns :
  let r := serializeOutTo (hooks := raw_hooks) 0%nat [x03] "g.bin" sample_world in
  snd r = Return tt /\
  files (snd (fst r)) !! "g.bin" = Some [x03] /\
  open_files (snd (fst r)) = [] /\
  dispatched (snd (fst r)) = [HookSerializeOut].
Proof. vm_compute. repeat split. Qed.

Example raw_serializeOutTo_throws :
  let r := serializeOutTo (hooks := raw_hooks) 0%nat [] "g.bin" sample_world in
  snd r = Throw (Exception "empty graph") /\
  files (snd (fst r)) !! "g.bin" = Some [] /\
  open_files (snd (fst r)) = [].
Proof. vm_compute. repeat split. Qed.

Example raw_serializeInFrom_returns :
  let r := serializeInFrom (hooks := raw_hooks) 0%nat "g.bin" [] sample_world in
  snd r = Return tt /\
  snd (fst (fst r)) = [x01; x02] /\
  open_files (snd (fst r)) = [] /\
  dispatched (snd (fst r)) = [HookSerializeIn].
Proof. vm_compute. repeat split. Qed.

Example fresh_serializer_getProgressNotifier :
  getProgressNotifier (fst (Serializer_ctor ∅)) =
    Throw (Exception getProgressNotifier_message) /\
  getProgressNotifier_const (fst (Serializer_ctor ∅)) <> nullptr.
Proof. split; [by vm_compute | apply Serializer_ctor_holds]. Qed.

Lemma serializeOutTo_open_failure_witness :
  ofstream_not (fst (ofstream_ctor "/no/such/dir/g.bin" sample_world)) = true /\
  let r := serializeOutTo (hooks := raw_hooks) 0%nat [x03] "/no/such/dir/g.bin" sample_world in
  r = ((0%nat, cerr_print (serializeOutTo_message ++ "/no/such/dir/g.bin" ++ endl) sample_world),
       Return tt) /\
  cerr (snd (fst r)) =
    cerr sample_world ++ serializeOutTo_message ++ "/no/such/dir/g.bin" ++ endl /\
  files (snd (fst r)) = files sample_world /\
  open_files (snd (fst r)) = open_files sample_world /\
  dispatched (snd (fst r)) = dispatched sample_world.
Proof.
  assert (H : ofstream_not (fst (ofstream_ctor "/no/such/dir/g.bin" sample_world)) = true)
    by (vm_compute; reflexivity).
  split; [exact H |].
  exact (serializeOutTo_open_failure (hooks := raw_hooks) 0%nat [x03]
           "/no/such/dir/g.bin" sample_world H).
Defined.

Lemma serializeInFrom_open_failure_witness :
  ifstream_not (fst (ifstream_ctor "locked.bin" sample_world)) = true /\
  let r := serializeInFrom (hooks := raw_hooks) 0%nat "locked.bin" [x07] sample_world in
  r = ((0%nat, [x07],
        cerr_print (serializeInFrom_message ++ "locked.bin" ++ endl) sample_world),
       Return tt) /\
  snd (fst (fst r)) = [x07] /\
  cerr (snd (fst r)) =
    cerr sample_world ++ serializeInFrom_message ++ "locked.bin" ++ endl /\
  files (snd (fst r)) = files sample_world /\
  dispatched (snd (fst r)) = dispatched sample_world.
Proof.
  assert (H : ifstream_not (fst (ifstream_ctor "locked.bin" sample_world)) = true)
    by (vm_compute; reflexivity).
  split; [exact H |].
  exact (serializeInFrom_open_failure (hooks := raw_hooks) 0%nat [x07]
           "locked.bin" sample_world H).
Defined.

Lemma serializeOutTo_twice_truncates_witness :
  (("g.bin" ∉ unwritable sample_world) /\ ("g.bin" ∉ unreadable sample_world)) /\
  let r1 := serializeOutTo (hooks := raw_hooks) 0%nat [x03; x04; x05] "g.bin" sample_world in
  let first :=
    os_written (snd (fst (raw_serializeOut 0%nat [x03; x04; x05] (mkOstream [] false)))) in
  let reopened := ofstream_ctor "g.bin" (snd (fst r1)) in
  let r2 := serializeOutTo (hooks := raw_hooks) (fst (fst r1)) [x06] "g.bin" (snd (fst r1)) in
  let second :=
    os_written (snd (fst (raw_serializeOut (fst (fst r1)) [x06] (mkOstream [] false)))) in
  files (snd (fst r1)) !! "g.bin" = Some first /\
  ofstream_not (fst reopened) = false /\
  files (snd reopened) !! "g.bin" = Some [] /\
  files (snd (fst r2)) !! "g.bin" = Some second /\
  ifstream_not (fst (ifstream_ctor "g.bin" (snd (fst r2)))) = false /\
  is_content (if_stream (fst (ifstream_ctor "g.bin" (snd (fst r2))))) = second /\
  is_pos (if_stream (fst (ifstream_ctor "g.bin" (snd (fst r2))))) = 0%nat.
Proof.
  assert (Hw : "g.bin" ∉ unwritable sample_world)
    by (apply (bool_decide_unpack _); vm_compute; reflexivity).
  assert (Hr : "g.bin" ∉ unreadable sample_world)
    by (apply (bool_decide_unpack _); vm_compute; reflexivity).
  split; [split; assumption |].
  exact (serializeOutTo_twice_truncates (hooks := raw_hooks) 0%nat [x03; x04; x05] [x06]
           "g.bin" sample_world Hw Hr).
Defined.

(** A shorter second write: three bytes, then one.  The file ends with the
    one byte alone. *)
Example raw_serializeOutTo_twice :
  let r1 := serializeOutTo (hooks := raw_hooks) 0%nat [x03; x04; x05] "g.bin" sample_world in
  let r2 := serializeOutTo (hooks := raw_hooks) (fst (fst r1)) [x06] "g.bin" (snd (fst r1)) in
  files (snd (fst r1)) !! "g.bin" = Some [x03; x04; x05] /\
  files (snd (fst r2)) !! "g.bin" = Some [x06].
Proof. vm_compute. repeat split. Qed.

(** Closing writes over the content the file has at that time: bytes of the
    file beyond the written ones are kept, so it is the truncating open
    that makes the file hold the written bytes only. *)
Example ofstream_close_keeps_tail :
  files (snd (ofstream_close (mkOfstream (mkOstream [x06] false) (Some "g.bin"))
                (set_files (<["g.bin" := [x03; x04; x05]]> (files sample_world))
                   sample_world)))
    !! "g.bin" = Some [x06; x04; x05].
Proof. vm_compute. reflexivity. Qed.

(** C8, as stated, fails: a failed open is not surfaced to the caller.  On
    the sample environment the output shortcut on a path that cannot be
    opened, and the input shortcut on a file that cannot be read or does
    not exist, complete exactly as the same calls do on a file that opens:
    by a normal return. *)
Lemma open_failure_returns_like_success :
  ofstream_not (fst (ofstream_ctor "/no/such/dir/g.bin" sample_world)) = true /\
  ofstream_not (fst (ofstream_ctor "g.bin" sample_world)) = false /\
  failed (snd (serializeOutTo (hooks := raw_hooks) 0%nat [x03]
                 "/no/such/dir/g.bin" sample_world)) = false /\
  snd (serializeOutTo (hooks := raw_hooks) 0%nat [x03] "/no/such/dir/g.bin" sample_world) =
    snd (serializeOutTo (hooks := raw_hooks) 0%nat [x03] "g.bin" sample_world) /\
  ifstream_not (fst (ifstream_ctor "locked.bin" sample_world)) = true /\
  ifstream_not (fst (ifstream_ctor "missing.bin" sample_world)) = true /\
  ifstream_not (fst (ifstream_ctor "g.bin" sample_world)) = false /\
  failed (snd (serializeInFrom (hooks := raw_hooks) 0%nat "locked.bin" [] sample_world)) = false /\
  snd (serializeInFrom (hooks := raw_hooks) 0%nat "missing.bin" [] sample_world) =
    snd (serializeInFrom (hooks := raw_hooks) 0%nat "g.bin" [] sample_world).
Proof. vm_compute. repeat split. Qed.

(** * Further properties of the notifier slot *)

Lemma register_null_skips st r :
  registered r = nullptr -> register st r = st.
Proof.
  destruct st as [this h], r as [p | p]; simpl; intros ->; reflexivity.
Qed.

Lemma fold_register_null_skips rs : forall st,
  Forall (fun r => registered r = nullptr) rs -> fold_left register rs st = st.
Proof.
  induction rs as [| r rs IH]; intros st Hall; simpl; [reflexivity |].
  inversion Hall as [| ? ? Hr Hrs]; subst.
  rewrite register_null_skips by exact Hr. by apply IH.
Qed.

Lemma register_installs st r :
  registered r <> nullptr -> _progressNotifier (fst (register st r)) = registered r.
Proof.
  intros Hr. destruct r as [p | p]; simpl in *.
  - by rewrite registerProgressNotifier_installs.
  - change (registerProgressNotifier_raw (fst st) p (snd st))
      with (registerProgressNotifier (fst st) p (snd st)).
    by rewrite registerProgressNotifier_installs.
Qed.

Lemma new_store h : snd (new h) = {[fst (new h)]} ∪ h.
Proof. reflexivity. Qed.

(** X1: on a constructed serializer, whatever registrations it went through
    and by whichever overload, the const [getProgressNotifier()] never
    returns [nullptr]. *)
Theorem getProgressNotifier_const_never_null h rs :
  getProgressNotifier_const (fst (after_registrations h rs)) <> nullptr.
Proof. apply after_registrations_holds. Qed.

(** X2: the serializer holds the notifier of the last registration that
    passed a non-null pointer; null registrations made after it do not
    count. *)
Theorem last_registration_wins h rs1 r rs2 :
  registered r <> nullptr ->
  Forall (fun r' => registered r' = nullptr) rs2 ->
  getProgressNotifier_const (fst (after_registrations h (rs1 ++ r :: rs2))) = registered r.
Proof.
  intros Hr Hnull. unfold after_registrations, getProgressNotifier_const, get.
  rewrite fold_left_app. simpl.
  rewrite fold_register_null_skips by exact Hnull.
  by apply register_installs.
Qed.

Lemma last_registration_wins_witness :
  (registered (ByRawPointer 7) <> nullptr /\
   Forall (fun r' => registered r' = nullptr) [ByUniquePtr nullptr; ByRawPointer nullptr]) /\
  getProgressNotifier_const
    (fst (after_registrations {[ 5; 7 ]}
            ([ByUniquePtr 5; ByRawPointer nullptr] ++
             ByRawPointer 7 :: [ByUniquePtr nullptr; ByRawPointer nullptr]))) =
    registered (ByRawPointer 7).
Proof.
  assert (H7 : registered (ByRawPointer 7) <> nullptr) by discriminate.
  assert (Hn : Forall (fun r' => registered r' = nullptr)
                 [ByUniquePtr nullptr; ByRawPointer nullptr])
    by (repeat constructor).
  split; [split; assumption |].
  exact (last_registration_wins {[ 5; 7 ]} [ByUniquePtr 5; ByRawPointer nullptr]
           (ByRawPointer 7) [ByUniquePtr nullptr; ByRawPointer nullptr] H7 Hn).
Defined.

(** X3: a serializer that only ever received null registrations is exactly
    the serializer its constructor made: it still holds the default
    notifier, and the free store is the one the constructor left. *)
Theorem null_registrations_keep_default h rs :
  Forall (fun r => registered r = nullptr) rs ->
  after_registrations h rs = Serializer_ctor h.
Proof. intros Hnull. by apply fold_register_null_skips. Qed.

Lemma null_registrations_keep_default_witness :
  Forall (fun r => registered r = nullptr) [ByUniquePtr nullptr; ByRawPointer nullptr] /\
  after_registrations {[ 5; 7 ]} [ByUniquePtr nullptr; ByRawPointer nullptr] =
    Serializer_ctor {[ 5; 7 ]}.
Proof.
  assert (Hn : Forall (fun r => registered r = nullptr)
                 [ByUniquePtr nullptr; ByRawPointer nullptr])
    by (repeat constructor).
  split; [exact Hn |].
  exact (null_registrations_keep_default {[ 5; 7 ]}
           [ByUniquePtr nullptr; ByRawPointer nullptr] Hn).
Defined.

(** X4: the constructor allocates one notifier: the default notifier is not
    null, was not alive before, is alive afterwards, and every other object
    is alive afterwards exactly when it was before. *)
Theorem Serializer_ctor_allocates_default h :
  let st := Serializer_ctor h in
  _progressNotifier (fst st) <> nullptr /\
  (_progressNotifier (fst st) ∉ h) /\
  (_progressNotifier (fst st) ∈ snd st) /\
  (forall q, q <> _progressNotifier (fst st) -> q ∈ snd st <-> q ∈ h).
Proof.
  unfold Serializer_ctor.
  pose proof (new_nonnull h) as Hn. pose proof (new_fresh h) as Hf.
  pose proof (new_store h) as Hs.
  destruct (new h) as [p h1]. simpl in *. subst h1.
  split; [exact Hn |]. split; [exact Hf |].
  split; [apply elem_of_union_l, elem_of_singleton; reflexivity |].
  intros q Hq. rewrite elem_of_union, elem_of_singleton. tauto.
Qed.

(** X5: registering a non-null notifier destroys the notifier held before
    and nothing else: any other object, the new notifier included, is
    alive afterwards exactly when it was before. *)
Theorem registerProgressNotifier_destroys_only_previous this r h :
  r <> nullptr ->
  holds_notifier this ->
  forall q, q ∈ snd (registerProgressNotifier this r h) <->
            q ∈ h /\ q <> _progressNotifier this.
Proof.
  intros Hr Hinv q. rewrite registerProgressNotifier_installs by exact Hr. simpl.
  unfold unique_ptr_dtor, delete.
  destruct (N.eqb_spec (_progressNotifier this) nullptr) as [E | _];
    [contradiction |].
  rewrite elem_of_difference, elem_of_singleton. tauto.
Qed.

Lemma registerProgressNotifier_destroys_only_previous_witness :
  (7 <> nullptr /\ holds_notifier {| _progressNotifier := 8 |}) /\
  forall q, q ∈ snd (registerProgressNotifier {| _progressNotifier := 8 |} 7 {[ 5; 7; 8 ]}) <->
            q ∈ ({[ 5; 7; 8 ]} : store) /\ q <> _progressNotifier {| _progressNotifier := 8 |}.
Proof.
  assert (H7 : 7 <> nullptr) by discriminate.
  assert (H8 : holds_notifier {| _progressNotifier := 8 |}) by discriminate.
  split; [split; assumption |].
  exact (registerProgressNotifier_destroys_only_previous
           {| _progressNotifier := 8 |} 7 {[ 5; 7; 8 ]} H7 H8).
Defined.

(** X6: passing to the raw-pointer overload the notifier the serializer
    already holds (as in [s.registerProgressNotifier( p )] with [p] the
    held pointer) destroys that notifier and leaves it in the slot: the
    serializer then holds a pointer to a dead object. *)
Theorem registerProgressNotifier_raw_of_held_dangles this h :
  holds_notifier this ->
  let st := registerProgressNotifier_raw this (_progressNotifier this) h in
  fst st = this /\ (_progressNotifier (fst st) ∉ snd st).
Proof.
  intros Hinv st. subst st.
  change (registerProgressNotifier_raw this (_progressNotifier this) h)
    with (registerProgressNotifier this (_progressNotifier this) h).
  rewrite registerProgressNotifier_installs by exact Hinv. simpl.
  split; [by destruct this |]. by apply unique_ptr_dtor_dead.
Qed.

Lemma registerProgressNotifier_raw_of_held_dangles_witness :
  holds_notifier {| _progressNotifier := 8 |} /\
  let st := registerProgressNotifier_raw {| _progressNotifier := 8 |}
              (_progressNotifier {| _progressNotifier := 8 |}) {[ 5; 8 ]} in
  fst st = {| _progressNotifier := 8 |} /\ (_progressNotifier (fst st) ∉ snd st).
Proof.
  assert (H8 : holds_notifier {| _progressNotifier := 8 |}) by discriminate.
  split; [exact H8 |].
  exact (registerProgressNotifier_raw_of_held_dangles
           {| _progressNotifier := 8 |} {[ 5; 8 ]} H8).
Defined.

Lemma register_made_step st h :
  holds_notifier (fst st) ->
  _progressNotifier (fst st) ∉ h ->
  snd st = {[_progressNotifier (fst st)]} ∪ h ->
  holds_notifier (fst (register_made st)) /\
  (_progressNotifier (fst (register_made st)) ∉ h) /\
  snd (register_made st) = {[_progressNotifier (fst (register_made st))]} ∪ h.
Proof.
  intros Hinv Hold Hst. unfold register_made.
  pose proof (new_nonnull (snd st)) as Hn. pose proof (new_fresh (snd st)) as Hf.
  pose proof (new_store (snd st)) as Hs.
  destruct (new (snd st)) as [p h1]. simpl in *. subst h1.
  rewrite registerProgressNotifier_installs by exact Hn. simpl.
  unfold unique_ptr_dtor, delete.
  destruct (N.eqb_spec (_progressNotifier (fst st)) nullptr) as [E | _];
    [contradiction |].
  rewrite Hst in Hf |- *.
  split; [exact Hn |]. split.
  - intros Hp. apply Hf. by apply elem_of_union_r.
  - apply set_eq. intros q.
    rewrite elem_of_difference, !elem_of_union, !elem_of_singleton.
    split.
    + intros [[-> | [-> | Hq]] Hne]; [by left | contradiction | by right].
    + intros [-> | Hq]; (split; [tauto |]).
      * intros ->. apply Hf. apply elem_of_union_l, elem_of_singleton. reflexivity.
      * intros ->. contradiction.
Qed.

Lemma Serializer_ctor_owned h :
  holds_notifier (fst (Serializer_ctor h)) /\
  (_progressNotifier (fst (Serializer_ctor h)) ∉ h) /\
  snd (Serializer_ctor h) = {[_progressNotifier (fst (Serializer_ctor h))]} ∪ h.
Proof.
  pose proof (Serializer_ctor_holds h) as Hinv.
  unfold holds_notifier, Serializer_ctor in *.
  pose proof (new_fresh h) as Hf. pose proof (new_store h) as Hs.
  destruct (new h) as [p h1]. simpl in *. subst h1.
  split; [exact Hinv |]. split; [exact Hf | reflexivity].
Qed.

(** X7: a serializer that is constructed and then given, any number of
    times, a notifier allocated for the call (the documented
    [registerProgressNotifier( std::make_unique< ... >( ) )]) leaks nothing
    and keeps its notifier alive: the objects alive are those alive before
    the construction plus exactly the one notifier it holds. *)
Theorem register_made_leaks_nothing n h :
  let st := Nat.iter n register_made (Serializer_ctor h) in
  holds_notifier (fst st) /\
  (_progressNotifier (fst st) ∉ h) /\
  snd st = {[_progressNotifier (fst st)]} ∪ h.
Proof.
  cbv zeta. induction n as [| n IH].
  - exact (Serializer_ctor_owned h).
  - change (Nat.iter (S n) register_made (Serializer_ctor h))
      with (register_made (Nat.iter n register_made (Serializer_ctor h))).
    destruct IH as (Hinv & Hold & Hst). by apply register_made_step.
Qed.

(** * Further properties of the file-name shortcuts *)

Section ShortcutExtras.

Context {D Graph : Type} {hooks : SerializerHooks D Graph}.

Lemma ifstream_ctor_stream f w c :
  files w !! f = Some c ->
  f ∉ unreadable w ->
  ifstream_not (fst (ifstream_ctor f w)) = false /\
  if_stream (fst (ifstream_ctor f w)) = mkIstream c 0%nat false.
Proof.
  intros Hc Hr. unfold ifstream_ctor. rewrite Hc.
  rewrite decide_False by exact Hr. split; reflexivity.
Qed.

(** X8: when the file opens, [serializeOutTo] runs the stream-based
    [serializeOut] exactly once, on an empty sink, and the file afterwards
    holds what that call put into the sink, also when the call threw: the
    previous content is gone and a partial output stays on disk.  The state
    the call left in the serializer and its completion are passed on. *)
Theorem serializeOutTo_writes_hook_output (this : D) (graph : Graph) f w :
  f ∉ unwritable w ->
  let hooked := serializeOut this graph (mkOstream [] false) in
  let r := serializeOutTo this graph f w in
  files (snd (fst r)) !! f = Some (os_written (snd (fst hooked))) /\
  fst (fst r) = fst (fst hooked) /\
  snd r = snd hooked /\
  dispatched (snd (fst r)) = HookSerializeOut :: dispatched w /\
  cerr (snd (fst r)) = cerr w.
Proof.
  intros Hw hooked r. subst r hooked.
  rewrite serializeOutTo_opened by (by apply ofstream_ctor_opens).
  cbn. split; [apply lookup_insert_eq | repeat split].
Qed.

(** X10: [serializeInFrom] only reads: on every path, open failure,
    normal return or exception, the files and their access rights are what
    they were before the call. *)
Theorem serializeInFrom_reads_only (this : D) (graph : Graph) f w :
  files (snd (fst (serializeInFrom this f graph w))) = files w /\
  unwritable (snd (fst (serializeInFrom this f graph w))) = unwritable w /\
  unreadable (snd (fst (serializeInFrom this f graph w))) = unreadable w.
Proof.
  destruct (ifstream_not (fst (ifstream_ctor f w))) eqn:Hf.
  - rewrite serializeInFrom_not_opened by exact Hf. repeat split.
  - rewrite serializeInFrom_opened by exact Hf. repeat split.
Qed.

(** X11: what [serializeOutTo] wrote is what [serializeInFrom] reads.
    After an output to a path that can be opened both ways, an input from
    that path runs the stream-based [serializeIn] on a source that holds
    exactly the bytes the output call put into its sink, positioned at its
    start and not failed; the graph, the serializer state and the completion
    of the input are those of that call, and the file is left as written. *)
Theorem serializeOutTo_then_serializeInFrom (this : D) (g : Graph) f w
    (this2 : D) (g2 : Graph) :
  f ∉ unwritable w ->
  f ∉ unreadable w ->
  let written := os_written (snd (fst (serializeOut this g (mkOstream [] false)))) in
  let r1 := serializeOutTo this g f w in
  let r2 := serializeInFrom this2 f g2 (snd (fst r1)) in
  let hooked := serializeIn this2 (mkIstream written 0%nat false) g2 in
  fst (fst (fst r2)) = fst (fst (fst hooked)) /\
  snd (fst (fst r2)) = snd (fst hooked) /\
  snd r2 = snd hooked /\
  files (snd (fst r2)) !! f = Some written.
Proof.
  intros Hw Hr written r1 r2 hooked.
  assert (H1 : r1 = serializeOutTo this g f w) by reflexivity.
  rewrite serializeOutTo_opened in H1 by (by apply ofstream_ctor_opens).
  cbv zeta in H1. fold written in H1.
  assert (Hc : files (snd (fst r1)) !! f = Some written)
    by (rewrite H1; cbn; apply lookup_insert_eq).
  assert (Hr1 : f ∉ unreadable (snd (fst r1))) by (by rewrite H1).
  destruct (ifstream_ctor_stream f (snd (fst r1)) written Hc Hr1) as [Hopen Hs].
  assert (H2 : r2 = serializeInFrom this2 f g2 (snd (fst r1))) by reflexivity.
  rewrite serializeInFrom_opened in H2 by exact Hopen.
  cbv zeta in H2. rewrite Hs in H2. fold hooked in H2.
  rewrite H2. cbn. repeat split. exact Hc.
Qed.

End ShortcutExtras.

(** X12: on a serializer that does not override [serializeOut], an output
    to a path that opens reports nothing and returns normally, yet
    replaces the file's content by the empty content. *)
Theorem serializeOutTo_not_overridden_empties {D Graph : Type} (this : D) (graph : Graph) f w :
  f ∉ unwritable w ->
  let r := serializeOutTo (hooks := not_overridden) this graph f w in
  snd r = Return tt /\
  fst (fst r) = this /\
  files (snd (fst r)) = <[f := []]> (files w) /\
  cerr (snd (fst r)) = cerr w.
Proof.
  intros Hw r. subst r.
  rewrite serializeOutTo_opened by (by apply ofstream_ctor_opens).
  repeat split.
Qed.

(** X13: on a serializer that does not override [serializeIn], an input
    from any path, whether it opens or not, returns normally and leaves the
    graph, the serializer and the files as they were. *)
Theorem serializeInFrom_not_overridden_keeps_graph {D Graph : Type}
    (this : D) (graph : Graph) f w :
  let r := serializeInFrom (hooks := not_overridden) this f graph w in
  snd r = Return tt /\
  snd (fst (fst r)) = graph /\
  fst (fst (fst r)) = this /\
  files (snd (fst r)) = files w.
Proof.
  cbv zeta.
  destruct (ifstream_not (fst (ifstream_ctor f w))) eqn:Hf.
  - rewrite serializeInFrom_not_opened by exact Hf. repeat split.
  - rewrite serializeInFrom_opened by exact Hf. repeat split.
Qed.

Lemma serializeOutTo_writes_hook_output_witness :
  ("g.bin" ∉ unwritable sample_world) /\
  let hooked := raw_serializeOut 0%nat [] (mkOstream [] false) in
  let r := serializeOutTo (hooks := raw_hooks) 0%nat [] "g.bin" sample_world in
  files (snd (fst r)) !! "g.bin" = Some (os_written (snd (fst hooked))) /\
  fst (fst r) = fst (fst hooked) /\
  snd r = snd hooked /\
  dispatched (snd (fst r)) = HookSerializeOut :: dispatched sample_world /\
  cerr (snd (fst r)) = cerr sample_world.
Proof.
  assert (Hw : "g.bin" ∉ unwritable sample_world)
    by (apply (bool_decide_unpack _); vm_compute; reflexivity).
  split; [exact Hw |].
  exact (serializeOutTo_writes_hook_output (hooks := raw_hooks) 0%nat []
           "g.bin" sample_world Hw).
Defined.

Lemma serializeOutTo_then_serializeInFrom_witness :
  (("g.bin" ∉ unwritable sample_world) /\ ("g.bin" ∉ unreadable sample_world)) /\
  let written := os_written (snd (fst (raw_serializeOut 0%nat [x03; x04] (mkOstream [] false)))) in
  let r1 := serializeOutTo (hooks := raw_hooks) 0%nat [x03; x04] "g.bin" sample_world in
  let r2 := serializeInFrom (hooks := raw_hooks) 5%nat "g.bin" [] (snd (fst r1)) in
  let hooked := raw_serializeIn 5%nat (mkIstream written 0%nat false) [] in
  fst (fst (fst r2)) = fst (fst (fst hooked)) /\
  snd (fst (fst r2)) = snd (fst hooked) /\
  snd r2 = snd hooked /\
  files (snd (fst r2)) !! "g.bin" = Some written.
Proof.
  assert (Hw : "g.bin" ∉ unwritable sample_world)
    by (apply (bool_decide_unpack _); vm_compute; reflexivity).
  assert (Hr : "g.bin" ∉ unreadable sample_world)
    by (apply (bool_decide_unpack _); vm_compute; reflexivity).
  split; [split; assumption |].
  exact (serializeOutTo_then_serializeInFrom (hooks := raw_hooks) 0%nat [x03; x04]
           "g.bin" sample_world 5%nat [] Hw Hr).
Defined.

Lemma serializeOutTo_not_overridden_empties_witness :
  ("g.bin" ∉ unwritable sample_world) /\
  let r := serializeOutTo (hooks := not_overridden) 0%nat [x03] "g.bin" sample_world in
  snd r = Return tt /\
  fst (fst r) = 0%nat /\
  files (snd (fst r)) = <["g.bin" := []]> (files sample_world) /\
  cerr (snd (fst r)) = cerr sample_world.
Proof.
  assert (Hw : "g.bin" ∉ unwritable sample_world)
    by (apply (bool_decide_unpack _); vm_compute; reflexivity).
  split; [exact Hw |].
  exact (serializeOutTo_not_overridden_empties 0%nat [x03] "g.bin" sample_world Hw).
Defined.

(** With the concrete serializer the plumbing gives a round trip: a
    non-empty graph written to a file is the graph read back from it. *)
Example raw_round_trip :
  let r1 := serializeOutTo (hooks := raw_hooks) 0%nat [x03; x04] "g.bin" sample_world in
  let r2 := serializeInFrom (hooks := raw_hooks) (fst (fst r1)) "g.bin" [] (snd (fst r1)) in
  snd (fst (fst r2)) = [x03; x04] /\ snd r2 = Return tt.
Proof. vm_compute. repeat split. Qed.
